(** * Planetary Computer example notebooks

    The notebooks are linear sequences of calls into third-party libraries
    (pystac-client, rasterio, xrspatial, azure.storage.blob).  What the
    notebooks compute themselves are three list comprehensions and one loop:

    - [cog_assets], the asset keys whose media type is COG
      (JRC notebook, cell 6);
    - [cmaps], the colormap table of each COG asset
      (JRC notebook, cell 7);
    - [items_low_res] and [items_high_res], the items split by ground
      sample distance (3DEP notebook, cell 12).

    Python dictionaries are [gmap]s, a subscript on a missing key raises
    [KeyError], and a comprehension appends to its result in iteration
    order and stops at the first exception.

    The vegetation index of the storage notebook is computed inside
    [xrspatial]; it is modelled from its contract, on binary64 floats. *)

From Stdlib Require Import ZArith QArith List Floats.SpecFloat.
From Stdlib Require Import DecimalString DecimalNat.
From stdpp Require Import gmap strings list.

Local Open Scope Z_scope.

(** ** Python values and exceptions *)

(** Scalar values found in a STAC item's [properties] (decoded JSON).  A
    finite float is the rational it denotes; lists and nested dictionaries
    are [PyOther]. *)
Inductive pyval : Type :=
  | PyNone
  | PyBool (b : bool)
  | PyInt (z : Z)
  | PyFloat (q : Q)
  | PyNaN
  | PyInf (negative : bool)
  | PyStr (s : string)
  | PyOther.

Inductive exn : Type :=
  | KeyError (key : pyval).

Inductive result (A : Type) : Type :=
  | Ok (a : A)
  | Raise (e : exn).

Arguments Ok {A} a.
Arguments Raise {A} e.

#[global] Instance result_ret : MRet result := @Ok.
#[global] Instance result_bind : MBind result :=
  fun A B f m => match m with Ok a => f a | Raise e => Raise e end.

(** [d[k]] on a dictionary. *)
Definition subscript {K V} `{Countable K} (inj : K -> pyval)
    (d : gmap K V) (k : K) : result V :=
  match d !! k with
  | Some v => Ok v
  | None => Raise (KeyError (inj k))
  end.

(** [[body x for x in xs if cond x]]: the condition is evaluated first, the
    body only when it holds; [acc] is the list built so far. *)
Fixpoint list_comp {A B} (cond : A -> result bool) (body : A -> result B)
    (xs : list A) (acc : list B) : result (list B) :=
  match xs with
  | [] => Ok acc
  | x :: xs' =>
      c ← cond x;
      if (c : bool)
      then y ← body x; list_comp cond body xs' (acc ++ [y])
      else list_comp cond body xs' acc
  end.

(** [range(n)] *)
Definition range (n : nat) : list Z := Z.of_nat <$> seq 0 n.

(** Python's [v == n] for an [int] literal [n]: numbers compare by value
    across [bool], [int] and [float]; everything else is unequal. *)
Definition py_eq_int (v : pyval) (n : Z) : bool :=
  match v with
  | PyBool b => (if b then 1 else 0) =? n
  | PyInt z => z =? n
  | PyFloat q => Qeq_bool q (inject_Z n)
  | PyNone | PyNaN | PyInf _ | PyStr _ | PyOther => false
  end.

(** The number a value denotes, when it is a finite number. *)
Definition pyval_num (v : pyval) : option Q :=
  match v with
  | PyBool b => Some (inject_Z (if b then 1 else 0))
  | PyInt z => Some (inject_Z z)
  | PyFloat q => Some q
  | PyNone | PyNaN | PyInf _ | PyStr _ | PyOther => None
  end.

(** ** Catalog items as the notebooks read them *)

Record Asset : Type := {
  href : string;
  media_type : option string;
}.

Record Item : Type := {
  id : string;
  properties : gmap string pyval;
  assets : list (string * Asset);
}.

(** ** JRC notebook: colormaps *)

Module Jrc.

(** [pystac.MediaType.COG] *)
Definition MediaType_COG : string :=
  "image/tiff; application=geotiff; profile=cloud-optimized".

(** Cell 6: [[asset_key for asset_key, asset in item.assets.items()
    if asset.media_type == pystac.MediaType.COG]] *)
Definition cog_assets (item : Item) : result (list string) :=
  list_comp
    (fun ka : string * Asset =>
       Ok (bool_decide (media_type ka.2 = Some MediaType_COG)))
    (fun ka => Ok ka.1)
    (assets item) [].

(** [np.array(t) / 256]: true division of every component.  Dividing an
    integer by a power of two is exact in binary floating point, so the
    quotient is the rational [c / 256]. *)
Definition np_div (t : list Z) (d : Z) : list Q :=
  (fun c => (inject_Z c / inject_Z d)%Q) <$> t.

(** [np.array(colormap_def[i]) / 256] *)
Definition colormap_entry (colormap_def : gmap Z (list Z)) (i : Z) : result (list Q) :=
  t ← subscript PyInt colormap_def i; Ok (np_div t 256).

(** Cell 7, the comprehension:
    [[np.array(colormap_def[i]) / 256 for i in range(256)]] *)
Definition colormap (colormap_def : gmap Z (list Z)) : result (list (list Q)) :=
  list_comp (fun _ => Ok true) (colormap_entry colormap_def) (range 256) [].

(** Sample palettes: a grey ramp with all 256 entries, and the same ramp
    without entry 0. *)
Definition grey_ramp : gmap Z (list Z) :=
  list_to_map ((fun i => (i, [i; i; i; 255])) <$> range 256).

Definition grey_ramp_without_0 : gmap Z (list Z) := delete 0 grey_ramp.

Section Cmaps.
(** What [rasterio.open(href).colormap(1)] reads from the file at [href]. *)
Variable src_colormap : string -> gmap Z (list Z).

(** [item.assets[asset_key]] on the asset dictionary. *)
Definition asset_of (item : Item) (asset_key : string) : result Asset :=
  match list_find (fun ka : string * Asset => ka.1 = asset_key) (assets item) with
  | Some (_, ka) => Ok ka.2
  | None => Raise (KeyError (PyStr asset_key))
  end.

(** Cell 7, the loop: [cmaps[asset_key] = ListedColormap(colormap)]. *)
Fixpoint cmaps_loop (item : Item) (keys : list string)
    (cmaps : gmap string (list (list Q))) : result (gmap string (list (list Q))) :=
  match keys with
  | [] => Ok cmaps
  | asset_key :: keys' =>
      asset ← asset_of item asset_key;
      table ← colormap (src_colormap (href asset));
      cmaps_loop item keys' (<[asset_key := table]> cmaps)
  end.

Definition cmaps (item : Item) : result (gmap string (list (list Q))) :=
  keys ← cog_assets item; cmaps_loop item keys ∅.
End Cmaps.

(** Cell 8, the subplot position: [f"23{i+1}"] is the text [23] followed by
    the decimal digits of [i + 1], for the index [i] that [enumerate]
    gives. *)
Definition fstring_subplot (i : nat) : string :=
  String.append "23" (NilEmpty.string_of_uint (Nat.to_uint (i + 1))).

(** [int(s)] for a string of decimal digits.  [None] is [ValueError]: the
    empty string, or a character that is no digit (the signs, blanks and
    underscores that [int] also reads do not occur in [fstring_subplot]). *)
Definition int_of_str (s : string) : option Z :=
  match s with
  | EmptyString => None
  | _ => d ← NilEmpty.uint_of_string s; Some (Z.of_nat (Nat.of_uint d))
  end.

(** [int(f"23{i+1}")] *)
Definition subplot_spec (i : nat) : option Z :=
  int_of_str (fstring_subplot i).

(** Cell 8, the colormap of one plot: [cmaps[asset_key]]. *)
Definition plot_cmap (cmaps : gmap string (list (list Q))) (asset_key : string)
    : result (list (list Q)) :=
  subscript PyStr cmaps asset_key.

(** A sample item with one COG asset and one thumbnail, and files whose
    band 1 carries the grey ramp. *)
Definition sample_item : Item :=
  {| id := "90E_30N";
     properties := ∅;
     assets :=
       [("occurrence",
         {| href := "https://example.blob.core.windows.net/jrc/occurrence.tif";
            media_type := Some MediaType_COG |});
        ("rendered_preview",
         {| href := "https://example.blob.core.windows.net/jrc/preview.png";
            media_type := Some "image/png" |})] |}.

Definition sample_src_colormap (_ : string) : gmap Z (list Z) := grey_ramp.

End Jrc.

(** ** 3DEP notebook: splitting the items by ground sample distance *)

Module ThreeDep.

(** [item.properties["gsd"] == n] *)
Definition gsd_is (n : Z) (item : Item) : result bool :=
  v ← subscript PyStr (properties item) "gsd"; Ok (py_eq_int v n).

Section Narrowing.
(** [pystac.Item.to_dict] and the dictionaries it builds. *)
Context {ItemDict : Type}.
Variable to_dict : Item -> ItemDict.

(** Cell 12: [[item.to_dict() for item in items
    if item.properties["gsd"] == 30]] *)
Definition items_low_res (items : list Item) : result (list ItemDict) :=
  list_comp (gsd_is 30) (fun item => Ok (to_dict item)) items [].

(** [[item.to_dict() for item in items if item.properties["gsd"] == 10]] *)
Definition items_high_res (items : list Item) : result (list ItemDict) :=
  list_comp (gsd_is 10) (fun item => Ok (to_dict item)) items [].

(** The cell runs the two assignments one after the other. *)
Definition cell12 (items : list Item) : result (list ItemDict * list ItemDict) :=
  low ← items_low_res items;
  high ← items_high_res items;
  Ok (low, high).
End Narrowing.

(** The item carries a [gsd] property whose value is the number [n]. *)
Definition gsd_equals (n : Z) (item : Item) : Prop :=
  exists v q, properties item !! "gsd" = Some v
              /\ pyval_num v = Some q /\ (q == inject_Z n)%Q.

Definition gsd_eqb (n : Z) (item : Item) : bool :=
  match properties item !! "gsd" with
  | Some v => py_eq_int v n
  | None => false
  end.

(** The selections exist and are the items of resolution 30 and 10, in
    catalog order, whatever the items are. *)
Definition narrowing_total {ItemDict} (to_dict : Item -> ItemDict)
    (items : list Item) : Prop :=
  cell12 to_dict items
  = Ok (to_dict <$> List.filter (gsd_eqb 30) items,
        to_dict <$> List.filter (gsd_eqb 10) items).

(** Sample items, and a stand-in for [to_dict] that keeps the item id. *)
Definition to_dict_id (item : Item) : string := id item.

Definition item_30 : Item :=
  {| id := "n42w123-1";
     properties := {[ "gsd" := PyInt 30 ]};
     assets := [] |}.

Definition item_10 : Item :=
  {| id := "n42w123-13";
     properties := {[ "gsd" := PyFloat (10 # 1) ]};
     assets := [] |}.

Definition item_60 : Item :=
  {| id := "n42w123-2";
     properties := {[ "gsd" := PyInt 60 ]};
     assets := [] |}.

Definition item_no_gsd : Item :=
  {| id := "n42w123";
     properties := {[ "datetime" := PyStr "2013-01-01T00:00:00Z" ]};
     assets := [] |}.

End ThreeDep.

(** ** Storage notebook: the vegetation index *)

Module Ndvi.

(** [.astype(float)]: the bands hold binary64 samples. *)
Definition prec : Z := 53.
Definition emax : Z := 1024.

Definition fadd := SFadd prec emax.
Definition fsub := SFsub prec emax.
Definition fdiv := SFdiv prec emax.

(** The float of an integer, for sample inputs. *)
Definition of_Z (n : Z) : spec_float := binary_normalize prec emax n 0 false.

(** Modelled from the spec: [xrspatial.ndvi] is a third-party function the
    notebook only calls.  Section 4.4: the per-pixel normalized difference
    [(a - b) / (a + b)], not-a-number where the denominator is zero. *)
Definition normalized_difference (a b : spec_float) : spec_float :=
  let denominator := fadd a b in
  if SFeqb denominator (S754_zero false) then S754_nan
  else fdiv (fsub a b) denominator.

(** A band is a grid of samples, row by row. *)
Abbreviation band := (list (list spec_float)).

Definition pixel (a : band) (i j : nat) : option spec_float :=
  row ← a !! i; row !! j.

Definition same_shape (a b : band) : Prop :=
  Forall2 (fun r s : list spec_float => length r = length s) a b.

(** Modelled from the spec: the index of two same-shaped bands, pixel by
    pixel, in a new grid. *)
Definition ndvi (a b : band) : band :=
  zip_with (zip_with normalized_difference) a b.

(** [s] is the negation of [r] as a float value: the same float, or equal
    under the float comparison (the two zeros compare equal). *)
Definition negated (r s : spec_float) : Prop :=
  s = SFopp r \/ SFeqb s (SFopp r) = true.

(** Sample bands: one row, two pixels. *)
Definition red_band : band := [[of_Z 3; of_Z 1]].
Definition nir_band : band := [[of_Z 1; of_Z 1]].

End Ndvi.

(** * Properties *)

(** ** Comprehensions *)

Section ListComp.
Context {A B : Type}.
Variables (cond : A -> result bool) (body : A -> result B).

(** A comprehension whose condition and body never raise is a filter
    followed by a map. *)
Lemma list_comp_ok (c : A -> bool) (f : A -> B) (xs : list A) (acc : list B) :
  Forall (fun x => cond x = Ok (c x) /\ (c x = true -> body x = Ok (f x))) xs ->
  list_comp cond body xs acc = Ok (acc ++ (f <$> List.filter c xs)).
Proof.
  intros Hall. revert acc.
  induction Hall as [|x xs [Hc Hb] _ IH]; intros acc; simpl.
  - by rewrite app_nil_r.
  - rewrite Hc. simpl. destruct (c x) eqn:Hcx.
    + rewrite (Hb eq_refl). simpl. rewrite IH. by rewrite <- app_assoc.
    + apply IH.
Qed.

(** It stops at the first element whose condition raises. *)
Lemma list_comp_raise_cond (pre post : list A) (x : A) (e : exn) (acc : list B) :
  Forall (fun x => exists c, cond x = Ok c /\ (c = true -> exists y, body x = Ok y)) pre ->
  cond x = Raise e ->
  list_comp cond body (pre ++ x :: post) acc = Raise e.
Proof.
  intros Hpre Hx. revert acc.
  induction Hpre as [|p pre (c & Hc & Hb) _ IH]; intros acc; simpl.
  - by rewrite Hx.
  - rewrite Hc. simpl. destruct c.
    + destruct (Hb eq_refl) as [y ->]. simpl. apply IH.
    + apply IH.
Qed.

(** ... or whose body raises. *)
Lemma list_comp_raise_body (pre post : list A) (x : A) (e : exn) (acc : list B) :
  Forall (fun x => exists c, cond x = Ok c /\ (c = true -> exists y, body x = Ok y)) pre ->
  cond x = Ok true -> body x = Raise e ->
  list_comp cond body (pre ++ x :: post) acc = Raise e.
Proof.
  intros Hpre Hx Hbx. revert acc.
  induction Hpre as [|p pre (c & Hc & Hb) _ IH]; intros acc; simpl.
  - by rewrite Hx; simpl; rewrite Hbx.
  - rewrite Hc. simpl. destruct c.
    + destruct (Hb eq_refl) as [y ->]. simpl. apply IH.
    + apply IH.
Qed.

(** A comprehension that returns has evaluated every element. *)
Lemma list_comp_Ok_inv (xs : list A) (acc out : list B) :
  list_comp cond body xs acc = Ok out ->
  Forall (fun x => exists c, cond x = Ok c /\ (c = true -> exists y, body x = Ok y)) xs.
Proof.
  revert acc. induction xs as [|x xs IH]; intros acc Hrun; [constructor|].
  simpl in Hrun. destruct (cond x) as [c|e] eqn:Hc; [|discriminate].
  simpl in Hrun. destruct c.
  - destruct (body x) as [y|e] eqn:Hb; [|discriminate]. simpl in Hrun.
    constructor; [|by eapply IH]. exists true. eauto.
  - constructor; [|by eapply IH]. exists false. split; [done|discriminate].
Qed.
End ListComp.

(** ** [range] *)

Lemma range_lookup (n i : nat) :
  (i < n)%nat -> range n !! i = Some (Z.of_nat i).
Proof.
  intros Hi. unfold range. rewrite list_lookup_fmap, lookup_seq_lt by done.
  done.
Qed.

Lemma range_length (n : nat) : length (range n) = n.
Proof. unfold range. by rewrite length_fmap, length_seq. Qed.

Lemma elem_of_range (n : nat) (k : Z) :
  k ∈ range n <-> 0 <= k < Z.of_nat n.
Proof.
  unfold range. rewrite list_elem_of_fmap. split.
  - intros (i & -> & Hi). apply elem_of_seq in Hi. lia.
  - intros Hk. exists (Z.to_nat k). split; [lia|]. apply elem_of_seq. lia.
Qed.

(** Cutting [range n] at an element: the prefix holds the smaller numbers. *)
Lemma range_split (n : nat) (pre post : list Z) (k : Z) :
  range n = pre ++ k :: post ->
  k = Z.of_nat (length pre) /\ (forall i, 0 <= i < k -> i ∈ pre).
Proof.
  intros Hsplit.
  assert (Hlen : (length pre < n)%nat).
  { rewrite <- (range_length n), Hsplit, length_app. simpl. lia. }
  assert (Hk : k = Z.of_nat (length pre)).
  { pose proof (range_lookup n (length pre) Hlen) as Hl.
    rewrite Hsplit, list_lookup_middle in Hl by done. congruence. }
  split; [done|]. intros i Hi.
  assert (Hi' : (Z.to_nat i < length pre)%nat) by lia.
  pose proof (range_lookup n (Z.to_nat i) ltac:(lia)) as Hl.
  rewrite Hsplit, lookup_app_l in Hl by done.
  apply list_elem_of_lookup_2 in Hl. by rewrite Z2Nat.id in Hl by lia.
Qed.

(** ** Colormap extraction (JRC notebook, cell 7) *)

Lemma filter_all {A} (xs : list A) : List.filter (fun _ => true) xs = xs.
Proof. induction xs as [|x xs IH]; simpl; congruence. Qed.

(** The first element with a decidable property, and what precedes it. *)
Lemma first_such {A} (P : A -> Prop) `{!forall x, Decision (P x)} (xs : list A) (x : A) :
  x ∈ xs -> P x ->
  exists pre y post, xs = pre ++ y :: post /\ P y /\ Forall (fun z => ~ P z) pre.
Proof.
  intros Hin HP.
  destruct (list_find_elem_of P xs x Hin HP) as [[i y] Hfind].
  apply list_find_Some in Hfind as (Hi & HPy & Hbefore).
  exists (take i xs), y, (drop (S i) xs). split; [|split; [done|]].
  - by rewrite take_drop_middle.
  - apply Forall_lookup. intros j z Hj.
    apply lookup_take_Some in Hj as [Hj Hlt]. by eapply Hbefore.
Qed.

Lemma colormap_unfold (colormap_def : gmap Z (list Z)) :
  Jrc.colormap colormap_def
  = list_comp (fun _ => Ok true) (Jrc.colormap_entry colormap_def) (range 256) [].
Proof. reflexivity. Qed.

Section Colormap.
Variable colormap_def : gmap Z (list Z).

Lemma colormap_entry_Some (i : Z) (raw : list Z) :
  colormap_def !! i = Some raw ->
  Jrc.colormap_entry colormap_def i = Ok (Jrc.np_div raw 256).
Proof. intros H. unfold Jrc.colormap_entry, subscript. by rewrite H. Qed.

Lemma colormap_entry_None (i : Z) :
  colormap_def !! i = None ->
  Jrc.colormap_entry colormap_def i = Raise (KeyError (PyInt i)).
Proof. intros H. unfold Jrc.colormap_entry, subscript. by rewrite H. Qed.

Lemma colormap_entry_Ok_inv (i : Z) (col : list Q) :
  Jrc.colormap_entry colormap_def i = Ok col -> is_Some (colormap_def !! i).
Proof.
  unfold Jrc.colormap_entry, subscript.
  destruct (colormap_def !! i); [eauto|discriminate].
Qed.

(** With every key of [range(256)] present the table is the palette,
    entry by entry. *)
Lemma colormap_complete :
  (forall i, 0 <= i < 256 -> is_Some (colormap_def !! i)) ->
  Jrc.colormap colormap_def
  = Ok ((fun i => Jrc.np_div (default [] (colormap_def !! i)) 256) <$> range 256).
Proof.
  intros Hall. rewrite colormap_unfold.
  rewrite (list_comp_ok _ _ (fun _ => true)
             (fun i => Jrc.np_div (default [] (colormap_def !! i)) 256)).
  - by rewrite filter_all.
  - apply Forall_forall. intros i Hi. split; [done|]. intros _.
    apply elem_of_range in Hi. destruct (Hall i) as [raw Hraw]; [lia|].
    rewrite Hraw. simpl. by apply colormap_entry_Some.
Qed.

(** With a key missing the comprehension raises at the least missing key. *)
Lemma colormap_incomplete (k : Z) :
  0 <= k < 256 -> colormap_def !! k = None ->
  exists k', 0 <= k' <= k /\ colormap_def !! k' = None
             /\ (forall i, 0 <= i < k' -> is_Some (colormap_def !! i))
             /\ Jrc.colormap colormap_def = Raise (KeyError (PyInt k')).
Proof.
  intros Hk Hnone.
  destruct (first_such (fun i => colormap_def !! i = None) (range 256) k)
    as (pre & k' & post & Hsplit & Hk' & Hpre); [by apply elem_of_range|done|].
  destruct (range_split _ _ _ _ Hsplit) as [Hlen Hsmall].
  assert (Hpresent : forall i, 0 <= i < k' -> is_Some (colormap_def !! i)).
  { intros i Hi. rewrite Forall_forall in Hpre.
    specialize (Hpre i (Hsmall i Hi)).
    destruct (colormap_def !! i); [eauto|done]. }
  exists k'. split; [|split; [done|split; [done|]]].
  - split; [lia|]. destruct (Z_lt_le_dec k k') as [Hlt|]; [|done].
    destruct (Hpresent k) as [? ?]; [lia|congruence].
  - rewrite colormap_unfold, Hsplit.
    apply list_comp_raise_body; [|done|by apply colormap_entry_None].
    apply Forall_forall. intros i Hi. exists true. split; [done|]. intros _.
    rewrite Forall_forall in Hpre. specialize (Hpre i Hi).
    destruct (colormap_def !! i) as [raw|] eqn:Hraw; [|done].
    exists (Jrc.np_div raw 256). by apply colormap_entry_Some.
Qed.
End Colormap.

(** A component divided by 256: the quotient, and its range for a palette
    component. *)
Lemma np_div_256 (raw : list Z) :
  Forall2 (fun c q => (q * inject_Z 256 == inject_Z c)%Q
                      /\ (0 <= c <= 255 -> (0 <= q)%Q /\ (q < 1)%Q))
          raw (Jrc.np_div raw 256).
Proof.
  unfold Jrc.np_div. induction raw as [|c raw IH]; simpl; constructor; [|done].
  split.
  - unfold Qeq, Qdiv, Qmult, Qinv, inject_Z. simpl. lia.
  - intros Hc. unfold Qle, Qlt, Qdiv, Qmult, Qinv, inject_Z. simpl. lia.
Qed.

(** C10. Colormap extraction returns a table exactly when the embedded
    colormap has an entry for every sample value 0 through 255.  The table
    then has 256 colors, entry [i] holding the components of
    [colormap_def[i]] divided by 256, each in [0, 1) for a raw component in
    0..255.  With a key of 0..255 missing, the extraction raises [KeyError]
    at the least missing key. *)
Theorem colormap_extraction (colormap_def : gmap Z (list Z)) :
  ((forall i, 0 <= i < 256 -> is_Some (colormap_def !! i))
   <-> exists table, Jrc.colormap colormap_def = Ok table)
  /\ (forall table, Jrc.colormap colormap_def = Ok table ->
        length table = 256%nat
        /\ forall i, 0 <= i < 256 ->
             exists raw col,
               colormap_def !! i = Some raw
               /\ table !! Z.to_nat i = Some col
               /\ Forall2 (fun c q => (q * inject_Z 256 == inject_Z c)%Q
                                      /\ (0 <= c <= 255 -> (0 <= q)%Q /\ (q < 1)%Q))
                          raw col)
  /\ (forall k, 0 <= k < 256 -> colormap_def !! k = None ->
        exists k', 0 <= k' <= k /\ colormap_def !! k' = None
                   /\ (forall i, 0 <= i < k' -> is_Some (colormap_def !! i))
                   /\ Jrc.colormap colormap_def = Raise (KeyError (PyInt k'))).
Proof.
  assert (Hinv : forall table, Jrc.colormap colormap_def = Ok table ->
                   forall i, 0 <= i < 256 -> is_Some (colormap_def !! i)).
  { intros table Hrun i Hi. rewrite colormap_unfold in Hrun.
    apply list_comp_Ok_inv in Hrun. rewrite Forall_forall in Hrun.
    destruct (Hrun i) as (c & Hc & Hb); [by apply elem_of_range|].
    injection Hc as <-. destruct (Hb eq_refl) as [col Hcol].
    by eapply colormap_entry_Ok_inv. }
  split; [|split].
  - split.
    + intros Hall. eexists. by apply colormap_complete.
    + intros [table Hrun]. by eapply Hinv.
  - intros table Hrun. pose proof (Hinv table Hrun) as Hall.
    assert (table = (fun i => Jrc.np_div (default [] (colormap_def !! i)) 256)
                    <$> range 256) as ->
      by (rewrite (colormap_complete _ Hall) in Hrun; congruence).
    split; [by rewrite length_fmap, range_length|].
    intros i Hi. destruct (Hall i Hi) as [raw Hraw].
    exists raw, (Jrc.np_div raw 256). split; [done|split].
    + rewrite list_lookup_fmap, range_lookup by lia. simpl.
      rewrite Z2Nat.id by lia. by rewrite Hraw.
    + apply np_div_256.
  - apply colormap_incomplete.
Qed.

Lemma colormap_extraction_witness :
  (exists table, Jrc.colormap Jrc.grey_ramp = Ok table /\ length table = 256%nat)
  /\ Jrc.colormap Jrc.grey_ramp_without_0 = Raise (KeyError (PyInt 0)).
Proof.
  split.
  - exists ((fun i => Jrc.np_div [i; i; i; 255] 256) <$> range 256).
    assert (Hrun : Jrc.colormap Jrc.grey_ramp
                   = Ok ((fun i => Jrc.np_div [i; i; i; 255] 256) <$> range 256))
      by (vm_compute; reflexivity).
    split; [exact Hrun|].
    exact (proj1 (proj1 (proj2 (colormap_extraction Jrc.grey_ramp)) _ Hrun)).
  - destruct (proj2 (proj2 (colormap_extraction Jrc.grey_ramp_without_0)) 0)
      as (k' & Hk' & Hnone & Hsome & Hrun); [lia|vm_compute; reflexivity|].
    assert (k' = 0) as -> by lia. exact Hrun.
Defined.

(** ** The COG assets and their colormap tables (JRC notebook, cells 6-7) *)

(** Cell 6 never raises: it keeps the keys of the COG assets, in order. *)
Lemma cog_assets_filter (item : Item) :
  Jrc.cog_assets item
  = Ok (fst <$> List.filter
                  (fun ka : string * Asset =>
                     bool_decide (media_type ka.2 = Some Jrc.MediaType_COG))
                  (assets item)).
Proof.
  unfold Jrc.cog_assets.
  rewrite (list_comp_ok _ _
             (fun ka : string * Asset =>
                bool_decide (media_type ka.2 = Some Jrc.MediaType_COG)) fst);
    [done|].
  by apply Forall_forall.
Qed.

Section Cmaps.
Variable src_colormap : string -> gmap Z (list Z).
Variable item : Item.

(** One turn of the loop. *)
Lemma cmaps_loop_step (k : string) (keys : list string) (asset : Asset)
    (cmaps0 : gmap string (list (list Q))) :
  Jrc.asset_of item k = Ok asset ->
  Jrc.cmaps_loop src_colormap item (k :: keys) cmaps0
  = match Jrc.colormap (src_colormap (href asset)) with
    | Ok table => Jrc.cmaps_loop src_colormap item keys (<[k:=table]> cmaps0)
    | Raise e => Raise e
    end.
Proof. intros Hasset. cbn [Jrc.cmaps_loop]. by rewrite Hasset. Qed.

(** The loop fills one table per key when every colormap is complete. *)
Lemma cmaps_loop_ok (keys : list string) (cmaps0 : gmap string (list (list Q))) :
  Forall (fun k => exists asset,
            Jrc.asset_of item k = Ok asset
            /\ forall i, 0 <= i < 256 -> is_Some (src_colormap (href asset) !! i))
         keys ->
  exists cmaps1,
    Jrc.cmaps_loop src_colormap item keys cmaps0 = Ok cmaps1
    /\ dom cmaps1 = dom cmaps0 ∪ list_to_set keys.
Proof.
  intros Hall. revert cmaps0.
  induction Hall as [|k keys (asset & Hasset & Hfull) _ IH]; intros cmaps0.
  - exists cmaps0. split; [done|]. by rewrite list_to_set_nil, union_empty_r_L.
  - rewrite (cmaps_loop_step _ _ _ _ Hasset).
    rewrite (colormap_complete _ Hfull).
    generalize ((fun i => Jrc.np_div
                   (default [] (src_colormap (href asset) !! i)) 256)
                <$> range 256).
    intros table.
    destruct (IH (<[k:=table]> cmaps0)) as (cmaps1 & Hrun & Hdom).
    exists cmaps1. split; [done|].
    rewrite Hdom, dom_insert_L, list_to_set_cons.
    by rewrite (union_comm_L {[k]} (dom cmaps0)), <- union_assoc_L.
Qed.

(** It stops with [KeyError] at the first asset whose colormap lacks one
    of the keys 0..255. *)
Lemma cmaps_loop_raise (k : string) (keys : list string) (asset : Asset)
    (missing : Z) (cmaps0 : gmap string (list (list Q))) :
  Jrc.asset_of item k = Ok asset ->
  0 <= missing < 256 -> src_colormap (href asset) !! missing = None ->
  exists k', 0 <= k' <= missing
    /\ Jrc.cmaps_loop src_colormap item (k :: keys) cmaps0
       = Raise (KeyError (PyInt k')).
Proof.
  intros Hasset Hrange Hnone. rewrite (cmaps_loop_step _ _ _ _ Hasset).
  destruct (colormap_incomplete _ missing Hrange Hnone)
    as (k' & Hk' & _ & _ & Hrun).
  exists k'. split; [done|]. by rewrite Hrun.
Qed.
End Cmaps.

(** ** Splitting by ground sample distance (3DEP notebook, cell 12) *)

(** Python's [==] against an [int] literal is equality of the numbers. *)
Lemma py_eq_int_spec (v : pyval) (n : Z) :
  py_eq_int v n = true <-> exists q, pyval_num v = Some q /\ (q == inject_Z n)%Q.
Proof.
  destruct v as [|b|z|q| | | |]; simpl;
    try (split; [discriminate|intros (? & ? & _); discriminate]).
  - rewrite Z.eqb_eq. split.
    + intros <-. eexists. split; [done|reflexivity].
    + intros (q & [= <-] & Heq). by apply inject_Z_injective.
  - rewrite Z.eqb_eq. split.
    + intros <-. eexists. split; [done|reflexivity].
    + intros (q & [= <-] & Heq). by apply inject_Z_injective.
  - rewrite Qeq_bool_iff. split.
    + intros Heq. eauto.
    + by intros (q' & [= <-] & Heq).
Qed.

Lemma gsd_eqb_spec (n : Z) (item : Item) :
  ThreeDep.gsd_eqb n item = true <-> ThreeDep.gsd_equals n item.
Proof.
  unfold ThreeDep.gsd_eqb, ThreeDep.gsd_equals.
  destruct (properties item !! "gsd") as [v|].
  - rewrite py_eq_int_spec. split.
    + intros (q & Hq & Heq). eauto.
    + intros (v' & q & [= <-] & Hq & Heq). eauto.
  - split; [discriminate|]. intros (? & ? & ? & _). discriminate.
Qed.

(** A resolution is one number. *)
Lemma gsd_equals_functional (n m : Z) (item : Item) :
  ThreeDep.gsd_equals n item -> ThreeDep.gsd_equals m item -> n = m.
Proof.
  intros (v & q & Hv & Hq & Heq) (v' & q' & Hv' & Hq' & Heq').
  assert (v' = v) as -> by congruence.
  assert (q' = q) as -> by congruence.
  apply inject_Z_injective. by rewrite <- Heq, <- Heq'.
Qed.

Lemma gsd_is_present (n : Z) (item : Item) :
  is_Some (properties item !! "gsd") ->
  ThreeDep.gsd_is n item = Ok (ThreeDep.gsd_eqb n item).
Proof.
  intros [v Hv]. unfold ThreeDep.gsd_is, ThreeDep.gsd_eqb, subscript.
  by rewrite Hv.
Qed.

Lemma gsd_is_missing (n : Z) (item : Item) :
  properties item !! "gsd" = None ->
  ThreeDep.gsd_is n item = Raise (KeyError (PyStr "gsd")).
Proof.
  intros Hv. unfold ThreeDep.gsd_is, subscript. by rewrite Hv.
Qed.

Section Narrowing.
Context {ItemDict : Type}.
Variable to_dict : Item -> ItemDict.

(** One selection: the filter when every item has the property, a
    [KeyError] otherwise. *)
Lemma select_by_gsd_ok (n : Z) (items : list Item) :
  Forall (fun item => is_Some (properties item !! "gsd")) items ->
  list_comp (ThreeDep.gsd_is n) (fun item => Ok (to_dict item)) items []
  = Ok (to_dict <$> List.filter (ThreeDep.gsd_eqb n) items).
Proof.
  intros Hall.
  rewrite (list_comp_ok _ _ (ThreeDep.gsd_eqb n) to_dict); [done|].
  eapply Forall_impl; [exact Hall|]. intros item Hitem. simpl.
  split; [by apply gsd_is_present|done].
Qed.

Lemma select_by_gsd_raise (n : Z) (items : list Item) :
  Exists (fun item => properties item !! "gsd" = None) items ->
  list_comp (ThreeDep.gsd_is n) (fun item => Ok (to_dict item)) items []
  = Raise (KeyError (PyStr "gsd")).
Proof.
  intros Hex. apply Exists_exists in Hex as (item & Hin & Hnone).
  destruct (first_such (fun item => properties item !! "gsd" = None) items item)
    as (pre & item' & post & -> & Hnone' & Hpre); [done|done|].
  apply list_comp_raise_cond; [|by apply gsd_is_missing].
  eapply Forall_impl; [exact Hpre|]. intros it Hit. simpl in Hit.
  exists (ThreeDep.gsd_eqb n it). split; [|eauto].
  apply gsd_is_present. by destruct (properties it !! "gsd"); [eauto|].
Qed.
End Narrowing.

(** C8 (as amended). When every item carries a [gsd] property, the cell
    returns the items whose [gsd] equals 30 and those whose [gsd] equals 10,
    each selection in query order, and no item is selected by both.  When
    some item carries no [gsd] property, the cell raises [KeyError] and
    makes no selection. *)
Theorem narrowing_by_gsd {ItemDict : Type} (to_dict : Item -> ItemDict)
    (items : list Item) :
  (Forall (fun item => is_Some (properties item !! "gsd")) items ->
   ThreeDep.cell12 to_dict items
   = Ok (to_dict <$> List.filter (ThreeDep.gsd_eqb 30) items,
         to_dict <$> List.filter (ThreeDep.gsd_eqb 10) items))
  /\ (Exists (fun item => properties item !! "gsd" = None) items ->
      ThreeDep.cell12 to_dict items = Raise (KeyError (PyStr "gsd")))
  /\ (forall n item, ThreeDep.gsd_eqb n item = true <-> ThreeDep.gsd_equals n item)
  /\ (forall item, ~ (ThreeDep.gsd_equals 30 item /\ ThreeDep.gsd_equals 10 item)).
Proof.
  split; [|split; [|split]].
  - intros Hall. unfold ThreeDep.cell12, ThreeDep.items_low_res, ThreeDep.items_high_res.
    by rewrite !select_by_gsd_ok.
  - intros Hex. unfold ThreeDep.cell12, ThreeDep.items_low_res.
    by rewrite select_by_gsd_raise.
  - apply gsd_eqb_spec.
  - intros item [H30 H10].
    pose proof (gsd_equals_functional _ _ _ H30 H10). discriminate.
Qed.

Lemma narrowing_by_gsd_witness :
  ThreeDep.cell12 ThreeDep.to_dict_id
    [ThreeDep.item_30; ThreeDep.item_10; ThreeDep.item_30]
  = Ok (["n42w123-1"; "n42w123-1"], ["n42w123-13"])
  /\ ThreeDep.cell12 ThreeDep.to_dict_id [ThreeDep.item_30; ThreeDep.item_no_gsd]
     = Raise (KeyError (PyStr "gsd")).
Proof.
  split.
  - apply (proj1 (narrowing_by_gsd ThreeDep.to_dict_id
                    [ThreeDep.item_30; ThreeDep.item_10; ThreeDep.item_30])).
    repeat constructor; eexists; vm_compute; reflexivity.
  - apply (proj1 (proj2 (narrowing_by_gsd ThreeDep.to_dict_id
                           [ThreeDep.item_30; ThreeDep.item_no_gsd]))).
    apply Exists_cons_tl, Exists_cons_hd. vm_compute. reflexivity.
Defined.

(** The split does not exist for every sequence of items: an item without a
    [gsd] property stops the cell. *)
Lemma narrowing_not_total :
  ~ ThreeDep.narrowing_total ThreeDep.to_dict_id [ThreeDep.item_no_gsd].
Proof. unfold ThreeDep.narrowing_total. vm_compute. discriminate. Qed.

(** ** The normalized difference (storage notebook) *)

Section FloatSign.
Variables prec emax : Z.

(** Rounding works on the magnitude; the sign is carried along. *)
Lemma binary_round_aux_negb (s : bool) (m e : Z) (l : location) :
  binary_round_aux prec emax (negb s) m e l
  = SFopp (binary_round_aux prec emax s m e l).
Proof.
  unfold binary_round_aux.
  destruct (shr_fexp prec emax m e l) as [mrs' e'].
  destruct (shr_fexp prec emax _ e' loc_Exact) as [mrs'' e''].
  destruct (shr_m mrs''); [done| |done].
  by destruct (Z.leb e'' (Z.sub emax prec)).
Qed.

Lemma binary_round_negb (s : bool) (m : positive) (e : Z) :
  binary_round prec emax (negb s) m e = SFopp (binary_round prec emax s m e).
Proof.
  unfold binary_round. destruct (shl_align m e _) as [mz ez].
  apply binary_round_aux_negb.
Qed.

Lemma binary_normalize_opp (m e : Z) :
  m <> 0 ->
  binary_normalize prec emax (- m) e false
  = SFopp (binary_normalize prec emax m e false).
Proof.
  intros Hm. destruct m as [|p|p]; [done| |]; simpl.
  - apply (binary_round_negb false).
  - apply (binary_round_negb true).
Qed.

Lemma SFadd_comm (x y : spec_float) :
  SFadd prec emax x y = SFadd prec emax y x.
Proof.
  destruct x as [sx|sx| |sx mx ex], y as [sy|sy| |sy my ey];
    try reflexivity; try (by destruct sx, sy).
  unfold SFadd. by rewrite (Z.min_comm ey ex), Z.add_comm.
Qed.

(** Swapping the operands of a subtraction negates the difference, except
    that an exact zero difference is [+0] both ways. *)
Lemma SFsub_swap (x y : spec_float) :
  SFsub prec emax y x = SFopp (SFsub prec emax x y)
  \/ (SFsub prec emax x y = S754_zero false
      /\ SFsub prec emax y x = S754_zero false).
Proof.
  destruct x as [sx|sx| |sx mx ex], y as [sy|sy| |sy my ey];
    try (by left); try (by destruct sx, sy; auto).
  unfold SFsub. rewrite (Z.min_comm ey ex).
  set (ez := Z.min ex ey).
  set (A := cond_Zopp sx (Z.pos (shl_align mx ex ez).1)).
  set (B := cond_Zopp sy (Z.pos (shl_align my ey ez).1)).
  destruct (Z.eq_dec (A - B) 0) as [Heq|Hne].
  - right. replace (B - A) with 0 by lia. by rewrite Heq.
  - left. replace (B - A) with (- (A - B)) by lia.
    by apply binary_normalize_opp.
Qed.

Lemma SFdiv_opp_l (x y : spec_float) :
  SFdiv prec emax (SFopp x) y = SFopp (SFdiv prec emax x y).
Proof.
  destruct x as [sx|sx| |sx mx ex], y as [sy|sy| |sy my ey];
    try reflexivity; try (by destruct sx, sy).
  unfold SFopp at 1. unfold SFdiv.
  destruct (SFdiv_core_binary prec emax (Z.pos mx) ex (Z.pos my) ey)
    as [[mz ez] lz].
  replace (xorb (negb sx) sy) with (negb (xorb sx sy)) by (by destruct sx, sy).
  apply binary_round_aux_negb.
Qed.

(** A zero divided by anything is a zero or not a number. *)
Lemma SFdiv_zero_l (y : spec_float) :
  SFdiv prec emax (S754_zero false) y = S754_nan
  \/ exists s, SFdiv prec emax (S754_zero false) y = S754_zero s.
Proof. destruct y; simpl; eauto. Qed.
End FloatSign.

Lemma negated_zero (s : bool) : Ndvi.negated (S754_zero s) (S754_zero s).
Proof. by right. Qed.

(** The index of the swapped pair is the negated index. *)
Lemma normalized_difference_swap (x y : spec_float) :
  SFeqb (Ndvi.fadd x y) (S754_zero false) = false ->
  Ndvi.normalized_difference x y = Ndvi.fdiv (Ndvi.fsub x y) (Ndvi.fadd x y)
  /\ Ndvi.negated (Ndvi.normalized_difference x y) (Ndvi.normalized_difference y x).
Proof.
  intros Hden. unfold Ndvi.normalized_difference.
  assert (Hcomm : Ndvi.fadd y x = Ndvi.fadd x y) by apply SFadd_comm.
  rewrite Hcomm, Hden. split; [done|].
  unfold Ndvi.fdiv, Ndvi.fsub.
  destruct (SFsub_swap Ndvi.prec Ndvi.emax x y) as [Hopp|[Hxy Hyx]].
  - left. rewrite Hopp. apply SFdiv_opp_l.
  - rewrite Hxy, Hyx.
    destruct (SFdiv_zero_l Ndvi.prec Ndvi.emax (Ndvi.fadd x y)) as [->|[s ->]].
    + by left.
    + apply negated_zero.
Qed.

Lemma pixel_ndvi (a b : Ndvi.band) (i j : nat) (x y : spec_float) :
  Ndvi.pixel a i j = Some x -> Ndvi.pixel b i j = Some y ->
  Ndvi.pixel (Ndvi.ndvi a b) i j = Some (Ndvi.normalized_difference x y).
Proof.
  unfold Ndvi.pixel, Ndvi.ndvi. intros Ha Hb. rewrite lookup_zip_with.
  destruct (a !! i) as [ra|]; [|done].
  destruct (b !! i) as [rb|]; [|done].
  simpl in *. by rewrite lookup_zip_with, Ha, Hb.
Qed.

Lemma ndvi_shape (a b : Ndvi.band) :
  Ndvi.same_shape a b -> Ndvi.same_shape a (Ndvi.ndvi a b).
Proof.
  unfold Ndvi.same_shape, Ndvi.ndvi.
  induction 1 as [|ra rb a b Hlen _ IH]; simpl; constructor; [|done].
  rewrite length_zip_with. lia.
Qed.

(** C3. For same-shaped bands [a] and [b], the index of [(b, a)] has the
    shape of the index of [(a, b)], and at every pixel where [a + b] is
    non-zero it is the negation of the index of [(a, b)], which there is
    [(a - b) / (a + b)]. *)
Theorem ndvi_antisymmetric (a b : Ndvi.band) :
  Ndvi.same_shape a b ->
  Ndvi.same_shape a (Ndvi.ndvi a b) /\ Ndvi.same_shape a (Ndvi.ndvi b a)
  /\ forall i j x y,
       Ndvi.pixel a i j = Some x -> Ndvi.pixel b i j = Some y ->
       SFeqb (Ndvi.fadd x y) (S754_zero false) = false ->
       exists r s,
         Ndvi.pixel (Ndvi.ndvi a b) i j = Some r
         /\ Ndvi.pixel (Ndvi.ndvi b a) i j = Some s
         /\ r = Ndvi.fdiv (Ndvi.fsub x y) (Ndvi.fadd x y)
         /\ Ndvi.negated r s.
Proof.
  intros Hshape. split; [by apply ndvi_shape|split].
  - assert (Hsym : Ndvi.same_shape b a).
    { clear -Hshape. induction Hshape; constructor; done. }
    pose proof (ndvi_shape b a Hsym) as Hba.
    clear -Hshape Hba. unfold Ndvi.same_shape in *.
    revert Hba. generalize (Ndvi.ndvi b a). intros c Hbc.
    revert c Hbc. induction Hshape as [|ra rb a b Hlen _ IH]; intros c Hbc.
    + inversion Hbc. constructor.
    + inversion Hbc as [|? rc ? c' Hlen' Hrest]; subst.
      constructor; [congruence|by apply IH].
  - intros i j x y Ha Hb Hden.
    destruct (normalized_difference_swap x y Hden) as [Hval Hneg].
    exists (Ndvi.normalized_difference x y), (Ndvi.normalized_difference y x).
    split; [by apply pixel_ndvi|split; [by apply pixel_ndvi|done]].
Qed.

Lemma ndvi_antisymmetric_witness :
  exists r s,
    Ndvi.pixel (Ndvi.ndvi Ndvi.red_band Ndvi.nir_band) 0 0 = Some r
    /\ Ndvi.pixel (Ndvi.ndvi Ndvi.nir_band Ndvi.red_band) 0 0 = Some s
    /\ r = Ndvi.fdiv (Ndvi.fsub (Ndvi.of_Z 3) (Ndvi.of_Z 1))
                     (Ndvi.fadd (Ndvi.of_Z 3) (Ndvi.of_Z 1))
    /\ Ndvi.negated r s.
Proof.
  assert (Hshape : Ndvi.same_shape Ndvi.red_band Ndvi.nir_band)
    by (repeat constructor).
  apply (proj2 (proj2 (ndvi_antisymmetric Ndvi.red_band Ndvi.nir_band Hshape))
           0%nat 0%nat (Ndvi.of_Z 3) (Ndvi.of_Z 1));
    vm_compute; reflexivity.
Defined.

(** * Further properties of the notebooks' code *)

(** ** The COG asset keys (JRC notebook, cell 6) *)

Lemma List_filter_sublist {A} (p : A -> bool) (l : list A) :
  sublist (List.filter p l) l.
Proof.
  induction l as [|x l IH]; simpl; [constructor|].
  destruct (p x); by constructor.
Qed.

Lemma elem_of_List_filter {A} (p : A -> bool) (l : list A) (x : A) :
  x ∈ List.filter p l <-> x ∈ l /\ p x = true.
Proof. rewrite !list_elem_of_In. apply filter_In. Qed.

(** Cell 6 never raises.  Its result lists, in the order of the asset
    dictionary, the keys of exactly the assets whose media type is COG; an
    asset without media type is left out. *)
Theorem cog_assets_spec (item : Item) :
  exists keys,
    Jrc.cog_assets item = Ok keys
    /\ sublist keys (assets item).*1
    /\ forall k, k ∈ keys <->
         exists asset, (k, asset) ∈ assets item
                       /\ media_type asset = Some Jrc.MediaType_COG.
Proof.
  eexists. split; [apply cog_assets_filter|split].
  - apply fmap_sublist, List_filter_sublist.
  - intros k. rewrite list_elem_of_fmap. split.
    + intros ([k' asset] & -> & Hin). apply elem_of_List_filter in Hin as [Hin Hcog].
      exists asset. split; [done|]. by apply bool_decide_eq_true in Hcog.
    + intros (asset & Hin & Hcog). exists (k, asset). split; [done|].
      apply elem_of_List_filter. split; [done|]. by apply bool_decide_eq_true.
Qed.

(** ** The colormap tables of an item (JRC notebook, cells 7 and 8) *)

(** [item.assets[asset_key]] finds an asset of the dictionary, and finds
    one for every key the dictionary has. *)
Lemma asset_of_Ok_elem (item : Item) (k : string) (asset : Asset) :
  Jrc.asset_of item k = Ok asset -> (k, asset) ∈ assets item.
Proof.
  unfold Jrc.asset_of.
  destruct (list_find _ _) as [[i [k' a]]|] eqn:Hfind; [|discriminate].
  intros [= <-]. apply list_find_Some in Hfind as (Hi & Hk & _).
  simpl in Hk. subst k'. by eapply list_elem_of_lookup_2.
Qed.

Lemma asset_of_elem (item : Item) (k : string) (asset : Asset) :
  (k, asset) ∈ assets item -> exists asset', Jrc.asset_of item k = Ok asset'.
Proof.
  intros Hin. unfold Jrc.asset_of.
  destruct (list_find_elem_of (fun ka : string * Asset => ka.1 = k)
              (assets item) (k, asset) Hin eq_refl) as [[i [k' a]] ->].
  eauto.
Qed.

(** Dictionary keys are unique, so the asset found is the asset stored. *)
Lemma asset_of_unique (item : Item) (k : string) (asset : Asset) :
  NoDup (assets item).*1 -> (k, asset) ∈ assets item ->
  Jrc.asset_of item k = Ok asset.
Proof.
  intros Hnodup Hin.
  destruct (asset_of_elem item k asset Hin) as [asset' Hfound].
  rewrite Hfound. f_equal.
  apply asset_of_Ok_elem in Hfound.
  revert Hnodup Hin Hfound. generalize (assets item). clear.
  intros l. induction l as [|[k0 a0] l IH]; intros Hnodup Hin Hin'.
  - by apply elem_of_nil in Hin.
  - rewrite fmap_cons in Hnodup. apply NoDup_cons in Hnodup as [Hfresh Hnodup].
    apply elem_of_cons in Hin as [Heq|Hin];
      apply elem_of_cons in Hin' as [Heq'|Hin']; simplify_eq.
    + done.
    + destruct Hfresh. apply list_elem_of_fmap. by exists (k0, asset').
    + destruct Hfresh. apply list_elem_of_fmap. by exists (k0, asset).
    + by apply IH.
Qed.

(** A table that is returned has 256 colors. *)
Lemma colormap_Ok_keys (colormap_def : gmap Z (list Z)) (table : list (list Q)) :
  Jrc.colormap colormap_def = Ok table ->
  forall i, 0 <= i < 256 -> is_Some (colormap_def !! i).
Proof.
  intros Hrun i Hi. rewrite colormap_unfold in Hrun.
  apply list_comp_Ok_inv in Hrun. rewrite Forall_forall in Hrun.
  destruct (Hrun i) as (c & Hc & Hb); [by apply elem_of_range|].
  assert (c = true) as -> by congruence.
  destruct (Hb eq_refl) as [col Hcol]. by eapply colormap_entry_Ok_inv.
Qed.

Lemma colormap_Ok_length (colormap_def : gmap Z (list Z)) (table : list (list Q)) :
  Jrc.colormap colormap_def = Ok table -> length table = 256%nat.
Proof.
  intros Hrun. pose proof (colormap_Ok_keys _ _ Hrun) as Hall.
  rewrite (colormap_complete _ Hall) in Hrun.
  assert (table = (fun i => Jrc.np_div (default [] (colormap_def !! i)) 256)
                  <$> range 256) as -> by congruence.
  by rewrite length_fmap, range_length.
Qed.


Section CmapsCell.
Variable src_colormap : string -> gmap Z (list Z).
Variable item : Item.

Lemma cmaps_loop_step_raise (k : string) (keys : list string) (e : exn)
    (cmaps0 : gmap string (list (list Q))) :
  Jrc.asset_of item k = Raise e ->
  Jrc.cmaps_loop src_colormap item (k :: keys) cmaps0 = Raise e.
Proof. intros Hasset. cbn [Jrc.cmaps_loop]. by rewrite Hasset. Qed.

(** A loop that returns has found the asset of its first key, built its
    table, stored it and gone on. *)
Lemma cmaps_loop_cons_Ok (k : string) (keys : list string)
    (cmaps0 cmaps1 : gmap string (list (list Q))) :
  Jrc.cmaps_loop src_colormap item (k :: keys) cmaps0 = Ok cmaps1 ->
  exists asset table,
    Jrc.asset_of item k = Ok asset
    /\ Jrc.colormap (src_colormap (href asset)) = Ok table
    /\ Jrc.cmaps_loop src_colormap item keys (<[k:=table]> cmaps0) = Ok cmaps1.
Proof.
  destruct (Jrc.asset_of item k) as [asset|e] eqn:Hasset.
  - rewrite (cmaps_loop_step _ _ _ _ _ _ Hasset).
    destruct (Jrc.colormap (src_colormap (href asset))) as [table|e] eqn:Htable;
      [|discriminate].
    intros Hrun. by exists asset, table.
  - by rewrite (cmaps_loop_step_raise _ _ _ _ Hasset).
Qed.

(** The loop writes only the keys it is given. *)
Lemma cmaps_loop_frame (keys : list string)
    (cmaps0 cmaps1 : gmap string (list (list Q))) (k : string) :
  Jrc.cmaps_loop src_colormap item keys cmaps0 = Ok cmaps1 ->
  k ∉ keys -> cmaps1 !! k = cmaps0 !! k.
Proof.
  revert cmaps0. induction keys as [|k0 keys IH]; intros cmaps0 Hrun Hk.
  - simpl in Hrun. congruence.
  - apply cmaps_loop_cons_Ok in Hrun as (asset & table & _ & _ & Hrun).
    apply not_elem_of_cons in Hk as [Hne Hk].
    rewrite (IH _ Hrun Hk). by apply lookup_insert_ne.
Qed.

Lemma cmaps_loop_dom (keys : list string)
    (cmaps0 cmaps1 : gmap string (list (list Q))) :
  Jrc.cmaps_loop src_colormap item keys cmaps0 = Ok cmaps1 ->
  dom cmaps1 = dom cmaps0 ∪ list_to_set keys.
Proof.
  revert cmaps0. induction keys as [|k0 keys IH]; intros cmaps0 Hrun.
  - simpl in Hrun. assert (cmaps1 = cmaps0) as -> by congruence.
    by rewrite list_to_set_nil, union_empty_r_L.
  - apply cmaps_loop_cons_Ok in Hrun as (asset & table & _ & _ & Hrun).
    rewrite (IH _ Hrun), dom_insert_L, list_to_set_cons.
    by rewrite (union_comm_L {[k0]} (dom cmaps0)), <- union_assoc_L.
Qed.

(** Under each key stands the table of the asset that the key names. *)
Lemma cmaps_loop_lookup (keys : list string)
    (cmaps0 cmaps1 : gmap string (list (list Q))) (k : string) :
  Jrc.cmaps_loop src_colormap item keys cmaps0 = Ok cmaps1 ->
  k ∈ keys ->
  exists asset table,
    Jrc.asset_of item k = Ok asset
    /\ Jrc.colormap (src_colormap (href asset)) = Ok table
    /\ cmaps1 !! k = Some table.
Proof.
  revert cmaps0. induction keys as [|k0 keys IH]; intros cmaps0 Hrun Hk.
  - by apply elem_of_nil in Hk.
  - apply cmaps_loop_cons_Ok in Hrun as (asset & table & Hasset & Htable & Hrun).
    destruct (decide (k ∈ keys)) as [Hin|Hout]; [by eapply IH|].
    apply elem_of_cons in Hk as [->|Hk]; [|done].
    exists asset, table. split; [done|split; [done|]].
    rewrite (cmaps_loop_frame _ _ _ _ Hrun Hout). apply lookup_insert_eq.
Qed.


Lemma cmaps_unfold :
  Jrc.cmaps src_colormap item
  = Jrc.cmaps_loop src_colormap item
      (fst <$> List.filter
                 (fun ka : string * Asset =>
                    bool_decide (media_type ka.2 = Some Jrc.MediaType_COG))
                 (assets item)) ∅.
Proof. unfold Jrc.cmaps. by rewrite cog_assets_filter. Qed.

Lemma cog_key_elem (k : string) :
  k ∈ fst <$> List.filter
                (fun ka : string * Asset =>
                   bool_decide (media_type ka.2 = Some Jrc.MediaType_COG))
                (assets item) <->
  exists asset, (k, asset) ∈ assets item
                /\ media_type asset = Some Jrc.MediaType_COG.
Proof.
  rewrite list_elem_of_fmap. split.
  - intros ([k' asset] & -> & Hin). apply elem_of_List_filter in Hin as [Hin Hcog].
    exists asset. split; [done|]. by apply bool_decide_eq_true in Hcog.
  - intros (asset & Hin & Hcog). exists (k, asset). split; [done|].
    apply elem_of_List_filter. split; [done|]. by apply bool_decide_eq_true.
Qed.
End CmapsCell.


(** When cell 7 returns, [cmaps] has exactly the keys of [cog_assets], and
    under each key the 256-color table built from the file of the asset
    that the key names.  So [cmaps[asset_key]] in cell 8 finds a table for
    every key of [cog_assets]. *)
Theorem cmaps_tables (src_colormap : string -> gmap Z (list Z)) (item : Item)
    (cmaps : gmap string (list (list Q))) :
  Jrc.cmaps src_colormap item = Ok cmaps ->
  exists keys,
    Jrc.cog_assets item = Ok keys
    /\ dom cmaps = list_to_set keys
    /\ forall k, k ∈ keys ->
         exists asset table,
           Jrc.asset_of item k = Ok asset
           /\ (k, asset) ∈ assets item
           /\ Jrc.colormap (src_colormap (href asset)) = Ok table
           /\ Jrc.plot_cmap cmaps k = Ok table
           /\ length table = 256%nat.
Proof.
  rewrite cmaps_unfold. intros Hrun.
  eexists. split; [apply cog_assets_filter|split].
  - by rewrite (cmaps_loop_dom _ _ _ _ _ Hrun), dom_empty_L, union_empty_l_L.
  - intros k Hk.
    destruct (cmaps_loop_lookup _ _ _ _ _ k Hrun Hk)
      as (asset & table & Hasset & Htable & Hlookup).
    exists asset, table. split; [done|split; [by apply asset_of_Ok_elem|]].
    split; [done|split; [|by eapply colormap_Ok_length]].
    unfold Jrc.plot_cmap, subscript. by rewrite Hlookup.
Qed.

Lemma cmaps_tables_witness :
  exists cmaps table,
    Jrc.cmaps Jrc.sample_src_colormap Jrc.sample_item = Ok cmaps
    /\ dom cmaps = {[ "occurrence" ]}
    /\ Jrc.plot_cmap cmaps "occurrence" = Ok table
    /\ length table = 256%nat.
Proof.
  set (cmaps := {[ "occurrence" :=
                     (fun i => Jrc.np_div [i; i; i; 255] 256) <$> range 256 ]}
                : gmap string (list (list Q))).
  assert (Hrun : Jrc.cmaps Jrc.sample_src_colormap Jrc.sample_item = Ok cmaps)
    by (vm_compute; reflexivity).
  destruct (cmaps_tables _ _ _ Hrun) as (keys & Hkeys & Hdom & Htables).
  assert (keys = ["occurrence"]) as ->
    by (vm_compute in Hkeys; congruence).
  destruct (Htables "occurrence") as (asset & table & _ & _ & _ & Hplot & Hlen);
    [by apply list_elem_of_singleton|].
  exists cmaps, table. split; [exact Hrun|split; [|split; [exact Hplot|exact Hlen]]].
  rewrite Hdom. by rewrite list_to_set_cons, list_to_set_nil, union_empty_r_L.
Defined.

(** With the unique keys of a dictionary, cell 7 returns exactly when the
    file of every COG asset has a palette entry for each of 0..255. *)
Theorem cmaps_succeeds_iff (src_colormap : string -> gmap Z (list Z))
    (item : Item) :
  NoDup (assets item).*1 ->
  (exists cmaps, Jrc.cmaps src_colormap item = Ok cmaps)
  <-> (forall k asset,
         (k, asset) ∈ assets item ->
         media_type asset = Some Jrc.MediaType_COG ->
         forall i, 0 <= i < 256 -> is_Some (src_colormap (href asset) !! i)).
Proof.
  intros Hnodup. rewrite cmaps_unfold. split.
  - intros [cmaps Hrun] k asset Hin Hcog.
    assert (Hk : k ∈ fst <$> List.filter
                   (fun ka : string * Asset =>
                      bool_decide (media_type ka.2 = Some Jrc.MediaType_COG))
                   (assets item)) by (apply cog_key_elem; eauto).
    destruct (cmaps_loop_lookup _ _ _ _ _ k Hrun Hk)
      as (asset' & table & Hasset & Htable & _).
    rewrite (asset_of_unique item k asset Hnodup Hin) in Hasset.
    assert (asset' = asset) as -> by congruence.
    by eapply colormap_Ok_keys.
  - intros Hfull.
    destruct (cmaps_loop_ok src_colormap item
                (fst <$> List.filter
                   (fun ka : string * Asset =>
                      bool_decide (media_type ka.2 = Some Jrc.MediaType_COG))
                   (assets item)) ∅) as (cmaps & Hrun & _); [|by exists cmaps].
    apply Forall_forall. intros k Hk.
    apply cog_key_elem in Hk as (asset & Hin & Hcog).
    exists asset. split; [by apply asset_of_unique|]. by eapply Hfull.
Qed.

Lemma cmaps_succeeds_iff_witness :
  NoDup (assets Jrc.sample_item).*1
  /\ exists cmaps, Jrc.cmaps Jrc.sample_src_colormap Jrc.sample_item = Ok cmaps.
Proof.
  assert (Hnodup : NoDup (assets Jrc.sample_item).*1)
    by (apply (bool_decide_unpack _); vm_compute; exact I).
  split; [exact Hnodup|].
  apply (proj2 (cmaps_succeeds_iff Jrc.sample_src_colormap Jrc.sample_item Hnodup)).
  intros k asset _ _.
  apply (colormap_Ok_keys Jrc.grey_ramp
           ((fun i => Jrc.np_div [i; i; i; 255] 256) <$> range 256)).
  vm_compute. reflexivity.
Defined.

(** ** The palette keys that matter (JRC notebook, cell 7) *)

Lemma list_comp_ext {A B} (cond cond' : A -> result bool)
    (body body' : A -> result B) (xs : list A) (acc : list B) :
  Forall (fun x => cond x = cond' x /\ body x = body' x) xs ->
  list_comp cond body xs acc = list_comp cond' body' xs acc.
Proof.
  intros Hall. revert acc.
  induction Hall as [|x xs [Hc Hb] _ IH]; intros acc; simpl; [done|].
  rewrite Hc, Hb. destruct (cond' x) as [[|]|]; simpl; [|apply IH|done].
  destruct (body' x); simpl; [apply IH|done].
Qed.

(** Only the entries 0..255 of the embedded palette are read: two palettes
    that agree on them give the same outcome, table or exception. *)
Theorem colormap_reads_only_byte_keys (d1 d2 : gmap Z (list Z)) :
  (forall i, 0 <= i < 256 -> d1 !! i = d2 !! i) ->
  Jrc.colormap d1 = Jrc.colormap d2.
Proof.
  intros Hagree. rewrite !colormap_unfold. apply list_comp_ext.
  apply Forall_forall. intros i Hi. apply elem_of_range in Hi.
  split; [done|]. unfold Jrc.colormap_entry, subscript.
  by rewrite (Hagree i) by lia.
Qed.

Lemma colormap_reads_only_byte_keys_witness :
  Jrc.colormap Jrc.grey_ramp
  = Jrc.colormap (<[256 := [0; 0; 0; 0]]> (<[-1 := []]> Jrc.grey_ramp)).
Proof.
  apply colormap_reads_only_byte_keys. intros i Hi.
  by rewrite !lookup_insert_ne by lia.
Defined.

(** ** The subplot position (JRC notebook, cell 8) *)

(** The digits of a number past 9 are at least two. *)
Lemma usize_to_uint_small (n : nat) :
  (1 <= n <= 9)%nat -> Unsigned.usize (Nat.to_uint n) = 1%nat.
Proof.
  intros Hn. do 10 (destruct n as [|n]; [reflexivity || lia|]). lia.
Qed.

Lemma usize_to_uint_large (n : nat) :
  (10 <= n)%nat -> (2 <= Unsigned.usize (Nat.to_uint n))%nat.
Proof.
  intros Hn. pose proof (Unsigned.of_to n) as Hval.
  destruct (Nat.to_uint n) as [|u|u|u|u|u|u|u|u|u|u];
    [vm_compute in Hval; lia|..];
    (destruct u; [vm_compute in Hval; lia|simpl; lia..]).
Qed.

(** Reading back a string of digits gives the number they spell. *)
Lemma int_of_str_digits (d : Decimal.uint) :
  d <> Decimal.Nil ->
  Jrc.int_of_str (NilEmpty.string_of_uint d) = Some (Z.of_nat (Nat.of_uint d)).
Proof.
  intros Hd. unfold Jrc.int_of_str.
  destruct (NilEmpty.string_of_uint d) as [|c s] eqn:Hs.
  - by destruct d.
  - by rewrite <- Hs, NilEmpty.usu.
Qed.

Lemma subplot_spec_digits (i : nat) :
  Jrc.subplot_spec i
  = Some (Z.of_nat (i + 1 + 23 * 10 ^ Unsigned.usize (Nat.to_uint (i + 1)))).
Proof.
  unfold Jrc.subplot_spec.
  change (Jrc.fstring_subplot i)
    with (NilEmpty.string_of_uint
            (Decimal.D2 (Decimal.D3 (Nat.to_uint (i + 1))))).
  rewrite int_of_str_digits by done. do 2 f_equal.
  change (Nat.of_uint (Decimal.D2 (Decimal.D3 ?u))) with (Nat.of_uint_acc u 23).
  by rewrite Unsigned.of_uint_acc_spec, <- Unsigned.of_uint_alt, Unsigned.of_to.
Qed.

(** [int(f"23{i+1}")] never raises.  For the first nine assets it is the
    three-digit position [231 + i]: a grid of 2 rows and 3 columns, plot
    number [i + 1].  From the tenth asset on it has more than three digits
    and is no position of that grid. *)
Theorem subplot_spec_value (i : nat) :
  ((i <= 8)%nat -> Jrc.subplot_spec i = Some (231 + Z.of_nat i))
  /\ ((9 <= i)%nat -> exists n, Jrc.subplot_spec i = Some n /\ 2310 <= n).
Proof.
  rewrite subplot_spec_digits. split.
  - intros Hi. rewrite usize_to_uint_small by lia. f_equal. simpl. lia.
  - intros Hi. eexists. split; [done|].
    pose proof (usize_to_uint_large (i + 1) ltac:(lia)) as Hk.
    assert (10 ^ 2 <= 10 ^ Unsigned.usize (Nat.to_uint (i + 1)))%nat
      by (apply Nat.pow_le_mono_r; lia).
    simpl in *. lia.
Qed.

Lemma subplot_spec_value_witness :
  Jrc.subplot_spec 5 = Some 236
  /\ exists n, Jrc.subplot_spec 9 = Some n /\ 2310 <= n.
Proof.
  split.
  - apply (proj1 (subplot_spec_value 5)). lia.
  - apply (proj2 (subplot_spec_value 9)). lia.
Defined.

(** ** What the split keeps and drops (3DEP notebook, cell 12) *)

Lemma filter_disjoint_length {A} (p q : A -> bool) (l : list A) :
  (forall x, p x = true -> q x = false) ->
  (length (List.filter p l) + length (List.filter q l) <= length l)%nat
  /\ ((length (List.filter p l) + length (List.filter q l) = length l)%nat
      <-> Forall (fun x => p x = true \/ q x = true) l).
Proof.
  intros Hdisj. induction l as [|x l [IHle IHeq]]; simpl.
  - split; [lia|]. split; [constructor|done].
  - pose proof (Hdisj x) as Hx.
    destruct (p x) eqn:Hp, (q x) eqn:Hq; simpl;
      try (specialize (Hx eq_refl); discriminate).
    + split; [lia|]. rewrite Forall_cons. split.
      * intros Hlen. split; [by left|]. apply IHeq. lia.
      * intros [_ Hall]. apply IHeq in Hall. lia.
    + split; [lia|]. rewrite Forall_cons. split.
      * intros Hlen. split; [by right|]. apply IHeq. lia.
      * intros [_ Hall]. apply IHeq in Hall. lia.
    + split; [lia|]. rewrite Forall_cons. split.
      * intros Hlen. lia.
      * intros [[H|H] _]; congruence.
Qed.

Section Split.
Context {ItemDict : Type}.
Variable to_dict : Item -> ItemDict.

(** A cell that returns found the property on every item. *)
Lemma cell12_Ok_inv (items : list Item) (low high : list ItemDict) :
  ThreeDep.cell12 to_dict items = Ok (low, high) ->
  Forall (fun item => is_Some (properties item !! "gsd")) items
  /\ low = to_dict <$> List.filter (ThreeDep.gsd_eqb 30) items
  /\ high = to_dict <$> List.filter (ThreeDep.gsd_eqb 10) items.
Proof.
  intros Hrun.
  assert (Hall : Forall (fun item => is_Some (properties item !! "gsd")) items).
  { unfold ThreeDep.cell12, ThreeDep.items_low_res in Hrun.
    destruct (list_comp (ThreeDep.gsd_is 30) _ items []) as [l|e] eqn:Hlow;
      [|discriminate].
    apply list_comp_Ok_inv in Hlow.
    eapply Forall_impl; [exact Hlow|]. intros item (c & Hc & _). simpl.
    unfold ThreeDep.gsd_is, subscript in Hc.
    destruct (properties item !! "gsd"); [eauto|discriminate]. }
  split; [done|].
  unfold ThreeDep.cell12, ThreeDep.items_low_res, ThreeDep.items_high_res in Hrun.
  rewrite !select_by_gsd_ok in Hrun by done. simpl in Hrun.
  split; congruence.
Qed.
End Split.

(** When the cell returns, every item had a [gsd] property, and the two
    selections together hold at most as many entries as there were items.
    They hold as many exactly when every item has [gsd] 30 or 10: an item
    of any other resolution is dropped from both without notice. *)
Theorem narrowing_drops_other_gsd {ItemDict : Type} (to_dict : Item -> ItemDict)
    (items : list Item) (low high : list ItemDict) :
  ThreeDep.cell12 to_dict items = Ok (low, high) ->
  Forall (fun item => is_Some (properties item !! "gsd")) items
  /\ (length low + length high <= length items)%nat
  /\ ((length low + length high = length items)%nat
      <-> Forall (fun item => ThreeDep.gsd_equals 30 item
                              \/ ThreeDep.gsd_equals 10 item) items).
Proof.
  intros Hrun. apply cell12_Ok_inv in Hrun as (Hall & -> & ->).
  split; [done|]. rewrite !length_fmap.
  destruct (filter_disjoint_length (ThreeDep.gsd_eqb 30) (ThreeDep.gsd_eqb 10) items)
    as [Hle Heq].
  { intros item H30. destruct (ThreeDep.gsd_eqb 10 item) eqn:H10; [|done].
    apply gsd_eqb_spec in H30, H10.
    pose proof (gsd_equals_functional _ _ _ H30 H10). discriminate. }
  split; [done|]. rewrite Heq. apply Forall_iff. intros item.
  by rewrite !gsd_eqb_spec.
Qed.

Lemma narrowing_drops_other_gsd_witness :
  (length ["n42w123-1"] + length ["n42w123-13"]
   <= length [ThreeDep.item_30; ThreeDep.item_60; ThreeDep.item_10])%nat
  /\ ~ Forall (fun item => ThreeDep.gsd_equals 30 item
                           \/ ThreeDep.gsd_equals 10 item)
         [ThreeDep.item_30; ThreeDep.item_60; ThreeDep.item_10].
Proof.
  destruct (narrowing_drops_other_gsd ThreeDep.to_dict_id
              [ThreeDep.item_30; ThreeDep.item_60; ThreeDep.item_10]
              ["n42w123-1"] ["n42w123-13"]) as (_ & Hle & Heq);
    [vm_compute; reflexivity|].
  split; [exact Hle|]. intros Hall. apply Heq in Hall. simpl in Hall. lia.
Defined.

(** The split of two result lists put end to end is the two splits put end
    to end: splitting page by page and splitting the whole list agree. *)
Theorem narrowing_app {ItemDict : Type} (to_dict : Item -> ItemDict)
    (items1 items2 : list Item) (low1 high1 low2 high2 : list ItemDict) :
  ThreeDep.cell12 to_dict items1 = Ok (low1, high1) ->
  ThreeDep.cell12 to_dict items2 = Ok (low2, high2) ->
  ThreeDep.cell12 to_dict (items1 ++ items2)
  = Ok (low1 ++ low2, high1 ++ high2).
Proof.
  intros (Hall1 & -> & ->)%cell12_Ok_inv (Hall2 & -> & ->)%cell12_Ok_inv.
  unfold ThreeDep.cell12, ThreeDep.items_low_res, ThreeDep.items_high_res.
  rewrite !select_by_gsd_ok by (by apply Forall_app). simpl.
  by rewrite !List.filter_app, !fmap_app.
Qed.

Lemma narrowing_app_witness :
  ThreeDep.cell12 ThreeDep.to_dict_id
    ([ThreeDep.item_30; ThreeDep.item_10] ++ [ThreeDep.item_60; ThreeDep.item_30])
  = Ok (["n42w123-1"] ++ ["n42w123-1"], ["n42w123-13"] ++ []).
Proof.
  apply narrowing_app; vm_compute; reflexivity.
Defined.
